(** * go-ipfs block and cat commands: a shallow embedding

    The development follows [core/commands/block.go] (the [ipfs block]
    sub-commands stat, get, put and rm) and the [ipfs cat] command.
    Go functions returning [(value, error)] become functions into
    [result]; handlers that talk to the block store thread a [World]
    (the store and the trace of requests issued to collaborators). *)

From Stdlib Require Import ZArith List Lia.
From Stdlib Require Strings.Byte.
From Stdlib Require DecimalString DecimalZ.
From stdpp Require Import base option list countable gmap sets strings.

Local Open Scope Z_scope.

(** ** Go values *)

Abbreviation bytes := (list Byte.byte).

#[global] Instance byte_eq_dec : EqDecision Byte.byte := Byte.byte_eq_dec.
#[global] Instance byte_countable : Countable Byte.byte :=
  inj_countable Byte.to_N Byte.of_N Byte.of_to_N.

(** Go's [(value, error)] pair; an error carries its message. *)
Inductive result (A : Type) : Type :=
| Ok (a : A)
| Err (e : string).
Arguments Ok {A} a.
Arguments Err {A} e.

Definition is_Err {A} (r : result A) : bool :=
  match r with Ok _ => false | Err _ => true end.

(** [uint64] arithmetic wraps. *)
Definition wrap64 (z : Z) : Z := z mod 2 ^ 64.

(** The conversion [int64(x)] of a [uint64]. *)
Definition int64 (z : Z) : Z :=
  let u := wrap64 z in if u <? 2 ^ 63 then u else u - 2 ^ 64.

(** ** Content identifiers (go-cid, go-multihash) *)

(** Codec numbers [cid.Raw], [cid.DagProtobuf], [cid.DagCBOR] and the
    multihash codes [mh.SHA1], [mh.SHA2_256]. *)
Definition Raw : Z := 0x55.
Definition DagProtobuf : Z := 0x70.
Definition DagCBOR : Z := 0x71.
Definition SHA1 : Z := 0x11.
Definition SHA2_256 : Z := 0x12.

Record Cid : Type := mkCid {
  cid_version : Z;
  cid_codec : Z;
  cid_mhtype : Z;
  cid_digest : bytes
}.

#[global] Instance Cid_eq_dec : EqDecision Cid.
Proof. solve_decision. Defined.

#[global] Instance Cid_countable : Countable Cid :=
  inj_countable'
    (fun c => (cid_version c, cid_codec c, cid_mhtype c, cid_digest c))
    (fun t => let '(v, k, h, d) := t in mkCid v k h d)
    (fun c => match c with mkCid _ _ _ _ => eq_refl end).

(** [cid.Prefix] *)
Record Prefix : Type := mkPrefix {
  Version : Z;
  Codec : Z;
  MhType : Z;
  MhLength : Z
}.

Definition zeroPrefix : Prefix := mkPrefix 0 0 0 0.
Definition set_Version (v : Z) (p : Prefix) : Prefix :=
  mkPrefix v (Codec p) (MhType p) (MhLength p).
Definition set_Codec (c : Z) (p : Prefix) : Prefix :=
  mkPrefix (Version p) c (MhType p) (MhLength p).
Definition set_MhType (h : Z) (p : Prefix) : Prefix :=
  mkPrefix (Version p) (Codec p) h (MhLength p).
Definition set_MhLength (l : Z) (p : Prefix) : Prefix :=
  mkPrefix (Version p) (Codec p) (MhType p) l.

(** What block.go imports from go-multihash and go-cid: the name
    registry [mh.Names], [cid.Decode], the [String] method of a Cid, and the digest
    primitive with the natural length of each hash function. *)
Class Libs : Type := {
  mh_Names : gmap string Z;
  cid_Decode : string -> result Cid;
  cid_String : Cid -> string;
  mh_natural : Z -> Z;
  mh_digest : Z -> Z -> bytes -> result bytes
}.

(** [blocks.Block] *)
Record Block : Type := mkBlock {
  RawData : bytes;
  BlockCid : Cid
}.

(** [BlockStat] *)
Record BlockStat : Type := mkBlockStat {
  Key : string;
  Size : Z
}.

(** ** Readers and emitted values *)

(** A [DagReader] as [coreunix.Cat] returns it: the size its root node
    declares (a [uint64]) and the bytes it still has to deliver. *)
Record DagReader : Type := mkDagReader {
  dr_Size : Z;
  dr_rest : bytes
}.

(** [util.RemovedBlock], by outcome. *)
Inductive Reason : Type := pinned | not_found.
Inductive RemovalOutcome : Type :=
| Removed (c : Cid)
| Skipped (c : Cid) (why : Reason).

Definition outcome_cid (o : RemovalOutcome) : Cid :=
  match o with Removed c | Skipped c _ => c end.

Definition skippedPinned (o : RemovalOutcome) : bool :=
  match o with Skipped _ pinned => true | _ => false end.

(** What a handler hands to [re.Emit]. [VNil] is Go's nil interface
    value; [VBar total r] is the reader [r] behind a started progress bar
    of [total] units. *)
Inductive Value : Type :=
| VNil
| VBlockStat (bs : BlockStat)
| VBytesReader (data : bytes)
| VMultiReader (readers : list DagReader)
| VRemovedBlock (o : RemovalOutcome)
| VBar (total : Z) (r : Value).

(** ** The response emitter

    Modelled from the spec: [cmds.ResponseEmitter] comes from go-ipfs-cmds
    and is not part of the sources at hand. A stream is open until [Close];
    emitting on a closed stream fails with [StreamClosed]; [SetError] and
    [SetLength] record the error and the declared length. *)
Record ResponseEmitter : Type := mkRE {
  re_error : option string;
  re_length : option Z;
  re_records : list Value;
  re_closed : bool
}.

Definition newEmitter : ResponseEmitter := mkRE None None [] false.

Definition SetError (e : string) (re : ResponseEmitter) : ResponseEmitter :=
  mkRE (Some e) (re_length re) (re_records re) (re_closed re).

Definition SetLength (l : Z) (re : ResponseEmitter) : ResponseEmitter :=
  mkRE (re_error re) (Some l) (re_records re) (re_closed re).

Definition Emit (v : Value) (re : ResponseEmitter) : result unit * ResponseEmitter :=
  if re_closed re then (Err "StreamClosed", re)
  else (Ok tt, mkRE (re_error re) (re_length re) (re_records re ++ [v]) false).

Definition Close (re : ResponseEmitter) : ResponseEmitter :=
  mkRE (re_error re) (re_length re) (re_records re) true.

(** ** The node, the request and the world *)

Record IpfsNode : Type := mkNode {
  OnlineMode : bool;
  SetupOfflineRouting : result unit;
  Pinning : gset Cid;
  (** path resolution over the node's DAG, as [coreunix.Cat] sees it *)
  Dag : string -> result DagReader;
  (** a write the block service refuses, with its error *)
  AddBlockFault : Cid -> option string
}.

(** The file argument of [block put]. *)
Record File : Type := mkFile {
  ReadAll : result bytes;
  FileClose : result unit
}.

Record Request : Type := mkRequest {
  GetNode : result IpfsNode;
  Arguments : list string;
  NextFile : result File;
  opt_format : string;
  opt_mhtype : string;
  opt_mhlen : result Z;
  opt_force : bool;
  opt_quiet : bool
}.


(** Requests issued to the collaborators, oldest first. *)
Inductive Event : Type :=
| EvDigest (mhtype mhlen : Z) (data : bytes)
| EvGetBlock (c : Cid)
| EvAddBlock (c : Cid)
| EvDeleteBlock (c : Cid)
| EvIsPinned (c : Cid).

Record World : Type := mkWorld {
  Blockstore : gmap Cid bytes;
  trace : list Event
}.

Definition log (e : Event) (w : World) : World :=
  mkWorld (Blockstore w) (trace w ++ [e]).

(** ** Fallible computations over the world *)

Definition IO (A : Type) : Type := World -> result A * World.

Definition ret {A} (a : A) : IO A := fun w => (Ok a, w).
Definition fail {A} (e : string) : IO A := fun w => (Err e, w).
Definition lift {A} (r : result A) : IO A := fun w => (r, w).

(** [x, err := m; if err != nil { return nil, err }; k x] *)
Definition bind {A B} (m : IO A) (k : A -> IO B) : IO B :=
  fun w =>
    match m w with
    | (Ok a, w') => k a w'
    | (Err e, w') => (Err e, w')
    end.

Declare Scope io_scope.
Delimit Scope io_scope with io.
Notation "x <- m ;; k" := (bind m (fun x => k))
  (at level 100, m at next level, right associativity) : io_scope.
Local Open Scope io_scope.

Section Commands.
Context `{L : Libs}.

(** *** The block service *)

(** [n.Blocks.GetBlock]: a miss is [blockservice.ErrNotFound]. *)
Definition GetBlock (c : Cid) : IO Block := fun w =>
  let w' := log (EvGetBlock c) w in
  match Blockstore w !! c with
  | Some data => (Ok (mkBlock data c), w')
  | None => (Err "blockservice: key not found", w')
  end.

(** [n.Blocks.AddBlock] *)
Definition AddBlock (n : IpfsNode) (b : Block) : IO Cid := fun w =>
  let w' := log (EvAddBlock (BlockCid b)) w in
  match AddBlockFault n (BlockCid b) with
  | Some e => (Err e, w')
  | None =>
      (Ok (BlockCid b),
       mkWorld (<[BlockCid b := RawData b]> (Blockstore w')) (trace w'))
  end.

(** *** block stat, block get *)

Definition getBlockForKey (req : Request) (skey : string) : IO Block :=
  if (String.length skey =? 0)%nat then fail "zero length cid invalid"
  else
    n <- lift (GetNode req) ;;
    c <- lift (cid_Decode skey) ;;
    b <- GetBlock c ;;
    ret b.

(** [Run] of a command: the emitter and the world it leaves; [None] is
    the run-time panic of [req.Arguments()[0]] on an empty slice. *)
Definition blockStatRun (req : Request) (re : ResponseEmitter) (w : World)
  : option (ResponseEmitter * World) :=
  match Arguments req with
  | [] => None
  | skey :: _ =>
      match getBlockForKey req skey w with
      | (Err err, w') => Some (SetError err re, w')
      | (Ok b, w') =>
          Some (snd (Emit (VBlockStat
                  (mkBlockStat (cid_String (BlockCid b))
                               (Z.of_nat (length (RawData b))))) re), w')
      end
  end.

Definition blockGetRun (req : Request) (re : ResponseEmitter) (w : World)
  : option (ResponseEmitter * World) :=
  match Arguments req with
  | [] => None
  | skey :: _ =>
      match getBlockForKey req skey w with
      | (Err err, w') => Some (SetError err re, w')
      | (Ok b, w') => Some (snd (Emit (VBytesReader (RawData b)) re), w')
      end
  end.

(** *** block put *)

(** Lines 143-175 of block.go: the prefix built from the [format],
    [mhtype] and [mhlen] options. *)
Definition putPrefix (req : Request) : IO Prefix :=
  let pref := set_Version 1 zeroPrefix in
  let format := opt_format req in
  pref <- (if String.eqb format "cbor" then ret (set_Codec DagCBOR pref)
           else if String.eqb format "protobuf" then ret (set_Codec DagProtobuf pref)
           else if String.eqb format "raw" then ret (set_Codec Raw pref)
           else if String.eqb format "v0" then
             ret (set_Codec DagProtobuf (set_Version 0 pref))
           else fail ("unrecognized format: " +:+ format)) ;;
  let mhtype := opt_mhtype req in
  mhtval <- match mh_Names !! mhtype with
            | Some v => ret v
            | None => fail ("unrecognized multihash function: " +:+ mhtype)
            end ;;
  let pref := set_MhType mhtval pref in
  mhlen <- lift (opt_mhlen req) ;;
  let pref := set_MhLength mhlen pref in
  ret pref.

(** The switch of [putPrefix] read as a table: version and codec per
    format. *)
Definition formatTable (format : string) : option (Z * Z) :=
  if String.eqb format "cbor" then Some (1, DagCBOR)
  else if String.eqb format "protobuf" then Some (1, DagProtobuf)
  else if String.eqb format "raw" then Some (1, Raw)
  else if String.eqb format "v0" then Some (0, DagProtobuf)
  else None.

(** Modelled from the spec: [cid.Prefix.Sum] lives in go-cid, over
    go-multihash, and is not part of the sources at hand. The hash length
    is resolved first: the sentinel -1 stands for the natural digest
    length of the hash function, any other length is used as supplied. *)
Definition resolveLength (p : Prefix) : Z :=
  if MhLength p =? -1 then mh_natural (MhType p) else MhLength p.

(** Modelled from the spec: the rest of [cid.Prefix.Sum]. The digest is
    computed over the input bytes and assembled with version, codec and
    hash function; version 0 fixes the codec to dag-protobuf and the hash
    function to the default 256-bit one; versions other than 0 and 1 do
    not exist. *)
Definition Prefix_Sum (p : Prefix) (data : bytes) : IO Cid := fun w =>
  let len := resolveLength p in
  let w' := log (EvDigest (MhType p) len data) w in
  match mh_digest (MhType p) len data with
  | Err e => (Err e, w')
  | Ok d =>
      if Version p =? 0 then (Ok (mkCid 0 DagProtobuf SHA2_256 d), w')
      else if Version p =? 1 then (Ok (mkCid 1 (Codec p) (MhType p) d), w')
      else (Err "invalid cid version", w')
  end.

(** Modelled from the spec: [blocks.NewBlockWithCid] is declared in the
    blocks package, outside the sources at hand; a block is the pair of
    its bytes and its identifier. *)
Definition NewBlockWithCid (data : bytes) (c : Cid) : result Block :=
  Ok (mkBlock data c).

Definition blockPutBody (req : Request) : IO Value :=
  n <- lift (GetNode req) ;;
  file <- lift (NextFile req) ;;
  data <- lift (ReadAll file) ;;
  _ <- lift (FileClose file) ;;
  pref <- putPrefix req ;;
  bcid <- Prefix_Sum pref data ;;
  b <- lift (NewBlockWithCid data bcid) ;;
  k <- AddBlock n b ;;
  ret (VBlockStat (mkBlockStat (cid_String k) (Z.of_nat (length data)))).

Definition blockPutRun (req : Request) (re : ResponseEmitter) (w : World)
  : ResponseEmitter * World :=
  match blockPutBody req w with
  | (Err err, w') => (SetError err re, w')
  | (Ok v, w') => (snd (Emit v re), w')
  end.

(** *** block rm *)

Record RmBlocksOpts : Type := mkRmBlocksOpts {
  Quiet : bool;
  Force : bool
}.

(** Modelled from the spec: [util.RmBlocks] is declared in
    blocks/blockstore/util, outside the sources at hand. Per identifier:
    pinned and not forced, it is skipped and the store is not touched;
    absent from the store and not forced, it is reported as not found;
    otherwise it is deleted and reported as removed. [Quiet] changes
    nothing here, it is for the renderer. *)
Definition rmBlock (pins : gset Cid) (opts : RmBlocksOpts) (c : Cid) (w : World)
  : RemovalOutcome * World :=
  let w := log (EvIsPinned c) w in
  if bool_decide (c ∈ pins) && negb (Force opts) then (Skipped c pinned, w)
  else
    let w' := log (EvDeleteBlock c) w in
    if bool_decide (Blockstore w !! c = None) && negb (Force opts)
    then (Skipped c not_found, w')
    else (Removed c, mkWorld (delete c (Blockstore w')) (trace w')).

(** Modelled from the spec: the outcomes [util.RmBlocks] sends on its
    channel, here in request order, one identifier after the other. *)
Fixpoint rmBlocksLoop (pins : gset Cid) (opts : RmBlocksOpts) (cids : list Cid)
  (w : World) : list RemovalOutcome * World :=
  match cids with
  | [] => ([], w)
  | c :: rest =>
      let '(o, w1) := rmBlock pins opts c w in
      let '(os, w2) := rmBlocksLoop pins opts rest w1 in
      (o :: os, w2)
  end.

Definition RmBlocks (pins : gset Cid) (cids : list Cid) (opts : RmBlocksOpts)
  : IO (list RemovalOutcome) := fun w =>
  let '(ch, w') := rmBlocksLoop pins opts cids w in (Ok ch, w').

(** The decoding loop of [blockRmCmd], lines 259-268. *)
Fixpoint decodeHashes (hashes : list string) (cids : list Cid) : result (list Cid) :=
  match hashes with
  | [] => Ok cids
  | hash :: rest =>
      match cid_Decode hash with
      | Err err =>
          Err ("invalid content id: " +:+ hash +:+ " (" +:+ err +:+ ")")
      | Ok c => decodeHashes rest (cids ++ [c])
      end
  end.

(** [for v := range ch { err := re.Emit(v); if err != nil { re.SetError } }] *)
Definition forward (re : ResponseEmitter) (v : RemovalOutcome) : ResponseEmitter :=
  match Emit (VRemovedBlock v) re with
  | (Err err, re') => SetError err re'
  | (Ok _, re') => re'
  end.

Definition blockRmRun (req : Request) (re : ResponseEmitter) (w : World)
  : ResponseEmitter * World :=
  match GetNode req with
  | Err err => (SetError err re, w)
  | Ok n =>
      let hashes := Arguments req in
      let force := opt_force req in
      let quiet := opt_quiet req in
      match decodeHashes hashes [] with
      | Err err => (SetError err re, w)
      | Ok cids =>
          match RmBlocks (Pinning n) cids (mkRmBlocksOpts quiet force) w with
          | (Err err, w') => (SetError err re, w')
          | (Ok ch, w') => (fold_left forward ch re, w')
          end
      end
  end.

End Commands.

(** ** cat *)

Definition progressBarMinSize : Z := 1024 * 1024 * 8.

(** [coreunix.Cat] resolves a path over the node's DAG. *)
Definition coreunix_Cat (node : IpfsNode) (fpath : string) : result DagReader :=
  Dag node fpath.

(** The loop of [cat], with its two accumulators. *)
Fixpoint catLoop (node : IpfsNode) (paths : list string)
  (readers : list DagReader) (length : Z) : result (list DagReader * Z) :=
  match paths with
  | [] => Ok (readers, length)
  | fpath :: rest =>
      match coreunix_Cat node fpath with
      | Err err => Err err
      | Ok read =>
          catLoop node rest (readers ++ [read])
                  (wrap64 (length + wrap64 (dr_Size read)))
      end
  end.

Definition cat (node : IpfsNode) (paths : list string)
  : result (list DagReader * Z) :=
  catLoop node paths [] (wrap64 0).

(** The sum of the sizes the readers declare, as a plain integer. *)
Definition declaredTotal (readers : list DagReader) : Z :=
  foldr (fun read acc => dr_Size read + acc) 0 readers.

Definition catRun (req : Request) (re : ResponseEmitter) : ResponseEmitter :=
  match GetNode req with
  | Err err => SetError err re
  | Ok node =>
      match (if negb (OnlineMode node) then SetupOfflineRouting node else Ok tt) with
      | Err err => SetError err re
      | Ok _ =>
          match cat node (Arguments req) with
          | Err err => SetError err re
          | Ok (readers, length) =>
              let re := SetLength length re in
              let reader := VMultiReader readers in
              Close (snd (Emit reader re))
          end
      end
  end.

(** *** Reading the payload: Go's [io.MultiReader] *)

(** One [Read] into a buffer of [k] bytes: the bytes delivered, whether
    the reader answered [io.EOF], and the reader afterwards. The reader
    answers [io.EOF] on the read that finds nothing left, which is one of
    the behaviours Go's [io.Reader] allows. *)
Definition dag_Read (k : nat) (r : DagReader) : bytes * bool * DagReader :=
  match dr_rest r with
  | [] => ([], true, r)
  | _ => (take k (dr_rest r), false, mkDagReader (dr_Size r) (drop k (dr_rest r)))
  end.

Fixpoint multi_Read (k : nat) (readers : list DagReader)
  : bytes * bool * list DagReader :=
  match readers with
  | [] => ([], true, [])
  | r :: rest =>
      let '(p, eof, r') := dag_Read k r in
      if eof then
        if (0 <? length p)%nat
        then (p, match rest with [] => true | _ => false end, rest)
        else multi_Read k rest
      else (p, false, r' :: rest)
  end.

(** Reading to the end through a buffer of [k] bytes; [None] when the
    fuel runs out first. *)
Fixpoint drain (fuel : nat) (k : nat) (readers : list DagReader) : option bytes :=
  match fuel with
  | O => None
  | S fuel' =>
      let '(p, eof, readers') := multi_Read k readers in
      if eof then Some p
      else match drain fuel' k readers' with
           | Some q => Some (p ++ q)
           | None => None
           end
  end.

(** *** The response and the CLI post-processing of cat *)

Inductive EncodingType : Type := JSON | XML | Protobuf | Text | CLI.

Record Response : Type := mkResponse {
  res_Length : Z;
  res_records : list Value;
  res_Error : option string
}.

(** What the consumer holds once the emitter is done; a length never
    set reads as 0. *)
Definition responseOf (re : ResponseEmitter) : Response :=
  mkResponse (default 0 (re_length re)) (re_records re) (re_error re).

(** [r, ok := v.(io.Reader)] *)
Definition asReader (v : Value) : Value :=
  match v with
  | VBytesReader _ | VMultiReader _ | VBar _ _ => v
  | _ => VNil
  end.

(** The [cmds.CLI] entry of [CatCmd.PostRun]. *)
Definition catPostRunCLI (res : Response) : Response :=
  if res_Length res <? progressBarMinSize then res
  else
    let v := default VNil (head (res_records res)) in
    let r := asReader v in
    mkResponse 0 [VBar (int64 (res_Length res)) r] None.

Definition CatCmd_PostRun (enc : EncodingType) : option (Response -> Response) :=
  match enc with
  | CLI => Some catPostRunCLI
  | _ => None
  end.

Definition postRun (enc : EncodingType) (res : Response) : Response :=
  match CatCmd_PostRun enc with
  | Some f => f res
  | None => res
  end.

Definition isBar (v : Value) : bool :=
  match v with VBar _ _ => true | _ => false end.

(** The response carries a progress-annotated payload. *)
Definition progressAnnotated (res : Response) : bool :=
  existsb isBar (res_records res).

(** ** Rendering *)

(** The line feed. *)
Definition LF : string :=
  String (Ascii.Ascii false true false true false false false false) "".

(** Go's [%d]. *)
Definition fmt_d (z : Z) : string :=
  DecimalString.NilEmpty.string_of_int (Z.to_int z).

(** [BlockStat.String]: [fmt.Sprintf("Key: %s\nSize: %d\n", bs.Key, bs.Size)]. *)
Definition BlockStat_String (bs : BlockStat) : string :=
  "Key: " +:+ Key bs +:+ LF +:+ "Size: " +:+ fmt_d (Size bs) +:+ LF.

(** The [cmds.Text] encoder of [blockPutCmd]: what it writes for a value;
    [None] is the panic of the type assertion to a [BlockStat] pointer. *)
Definition blockPutTextEncoder (v : Value) : option string :=
  match v with
  | VBlockStat bs => Some (Key bs +:+ LF)
  | _ => None
  end.

(** No line feed in the string. *)
Fixpoint noLF (s : string) : bool :=
  match s with
  | EmptyString => true
  | String a s' => negb (Ascii.eqb a (Ascii.Ascii false true false true false false false false)) && noLF s'
  end.

(** ** A small instance for the examples

    A registry with two entries, identifiers written [Qm...], and a toy
    digest (the input cut or zero-padded to the requested length) that
    stands for the real hash functions. *)
Module Sample.

Definition names : gmap string Z := {[ "sha1" := SHA1; "sha2-256" := SHA2_256 ]}.

Definition natural (mhtype : Z) : Z :=
  if mhtype =? SHA1 then 20 else 32.

Definition digest (mhtype mhlen : Z) (data : bytes) : result bytes :=
  if (0 <=? mhlen) && (mhlen <=? natural mhtype)
  then Ok (take (Z.to_nat mhlen) (data ++ replicate (Z.to_nat mhlen) Byte.x00))
  else Err "invalid hash length".

Definition decode (s : string) : result Cid :=
  if String.prefix "Qm" s
  then Ok (mkCid 0 DagProtobuf SHA2_256
             (String.list_byte_of_string
                (String.substring 2 (String.length s - 2) s)))
  else Err "selected encoding not supported".

Definition render (c : Cid) : string :=
  "Qm" +:+ String.string_of_list_byte (cid_digest c).

#[export] Instance libs : Libs := {|
  mh_Names := names;
  cid_Decode := decode;
  cid_String := render;
  mh_natural := natural;
  mh_digest := digest
|}.

Definition cidA : Cid := mkCid 0 DagProtobuf SHA2_256 (String.list_byte_of_string "A").
Definition cidB : Cid := mkCid 0 DagProtobuf SHA2_256 (String.list_byte_of_string "B").

Definition node : IpfsNode := {|
  OnlineMode := true;
  SetupOfflineRouting := Ok tt;
  Pinning := {[ cidA ]};
  Dag := fun fpath =>
    if String.eqb fpath "/ipfs/QmA"
    then Ok (mkDagReader 2 (String.list_byte_of_string "hi"))
    else if String.eqb fpath "/ipfs/QmB"
    then Ok (mkDagReader 3 (String.list_byte_of_string "all"))
    else Err "merkledag: not found";
  AddBlockFault := fun _ => None
|}.

(** A node whose DAG declares sizes at the top of the [uint64] range. *)
Definition hugeNode : IpfsNode := {|
  OnlineMode := true;
  SetupOfflineRouting := Ok tt;
  Pinning := ∅;
  Dag := fun fpath =>
    if String.eqb fpath "/ipfs/QmA"
    then Ok (mkDagReader (2 ^ 64 - 1) [])
    else Ok (mkDagReader 1 []);
  AddBlockFault := fun _ => None
|}.

Definition request (n : IpfsNode) (args : list string) : Request := {|
  GetNode := Ok n;
  Arguments := args;
  NextFile := Ok (mkFile (Ok (String.list_byte_of_string "data")) (Ok tt));
  opt_format := "v0";
  opt_mhtype := "sha2-256";
  opt_mhlen := Ok (-1);
  opt_force := false;
  opt_quiet := false
|}.

Definition withPutOptions (format mhtype : string) (r : Request) : Request :=
  mkRequest (GetNode r) (Arguments r) (NextFile r) format mhtype
            (opt_mhlen r) (opt_force r) (opt_quiet r).

Definition withForce (force : bool) (r : Request) : Request :=
  mkRequest (GetNode r) (Arguments r) (NextFile r) (opt_format r) (opt_mhtype r)
            (opt_mhlen r) force (opt_quiet r).

Definition world : World :=
  mkWorld {[ cidA := String.list_byte_of_string "a"; cidB := String.list_byte_of_string "b" ]} [].

End Sample.

(** * Properties *)

Section Properties.
Context `{L : Libs}.

(** *** block get, block stat *)

Lemma getBlockForKey_empty (req : Request) (w : World) :
  getBlockForKey req "" w = (Err "zero length cid invalid", w).
Proof. reflexivity. Qed.

(** C5: for the zero-length identifier, get and stat fail with the
    zero-length error and leave the world as it was: no request reaches
    the block store. *)
Theorem empty_key_never_reaches_store
  (req : Request) (re : ResponseEmitter) (w : World) (rest : list string) :
  Arguments req = "" :: rest ->
  getBlockForKey req "" w = (Err "zero length cid invalid", w) /\
  blockGetRun req re w = Some (SetError "zero length cid invalid" re, w) /\
  blockStatRun req re w = Some (SetError "zero length cid invalid" re, w).
Proof.
  intros Hargs. split; [apply getBlockForKey_empty|].
  unfold blockGetRun, blockStatRun. rewrite Hargs.
  rewrite getBlockForKey_empty. split; reflexivity.
Qed.

(** *** block put *)

(** [putPrefix] in closed form. *)
Lemma putPrefix_unfold (req : Request) (w : World) :
  putPrefix req w =
    (match formatTable (opt_format req) with
     | None => Err ("unrecognized format: " +:+ opt_format req)
     | Some (v, c) =>
         match mh_Names !! opt_mhtype req with
         | None => Err ("unrecognized multihash function: " +:+ opt_mhtype req)
         | Some mhtval =>
             match opt_mhlen req with
             | Err e => Err e
             | Ok mhlen => Ok (mkPrefix v c mhtval mhlen)
             end
         end
     end, w).
Proof.
  unfold putPrefix, formatTable, bind, ret, fail, lift.
  destruct (String.eqb (opt_format req) "cbor");
    [|destruct (String.eqb (opt_format req) "protobuf");
      [|destruct (String.eqb (opt_format req) "raw");
        [|destruct (String.eqb (opt_format req) "v0"); [|reflexivity]]]];
    (destruct (mh_Names !! opt_mhtype req); [|reflexivity]);
    destruct (opt_mhlen req); reflexivity.
Qed.

Lemma formatTable_None (format : string) :
  formatTable format = None <-> format ∉ ["cbor"; "protobuf"; "raw"; "v0"].
Proof.
  unfold formatTable. rewrite !not_elem_of_cons.
  destruct (String.eqb_spec format "cbor");
    [|destruct (String.eqb_spec format "protobuf");
      [|destruct (String.eqb_spec format "raw");
        [|destruct (String.eqb_spec format "v0")]]];
    split; try discriminate; try tauto.
  intros _. repeat split; auto. apply not_elem_of_nil.
Qed.

Lemma putPrefix_bad_format (req : Request) (w : World) :
  opt_format req ∉ ["cbor"; "protobuf"; "raw"; "v0"] ->
  putPrefix req w = (Err ("unrecognized format: " +:+ opt_format req), w).
Proof.
  intros Hf. apply formatTable_None in Hf.
  by rewrite putPrefix_unfold, Hf.
Qed.

Lemma putPrefix_bad_mhtype (req : Request) (w : World) :
  opt_format req ∈ ["cbor"; "protobuf"; "raw"; "v0"] ->
  mh_Names !! opt_mhtype req = None ->
  putPrefix req w = (Err ("unrecognized multihash function: " +:+ opt_mhtype req), w).
Proof.
  intros Hf Hm. rewrite putPrefix_unfold, Hm.
  destruct (formatTable (opt_format req)) as [[v c]|] eqn:Ht; [reflexivity|].
  apply formatTable_None in Ht. contradiction.
Qed.

Lemma blockPutRun_prefix_error (req : Request) (re : ResponseEmitter) (w : World) (msg : string) :
  putPrefix req w = (Err msg, w) ->
  (exists err, blockPutRun req re w = (SetError err re, w)) /\
  (forall n file data,
      GetNode req = Ok n -> NextFile req = Ok file ->
      ReadAll file = Ok data -> FileClose file = Ok tt ->
      blockPutRun req re w = (SetError msg re, w)).
Proof.
  intros Hp. unfold blockPutRun, blockPutBody, bind, lift. split.
  - destruct (GetNode req) as [n|e]; [|eauto].
    destruct (NextFile req) as [file|e]; [|eauto].
    destruct (ReadAll file) as [data|e]; [|eauto].
    destruct (FileClose file) as [[]|e]; [|eauto].
    rewrite Hp. eauto.
  - intros n file data -> -> -> ->. rewrite Hp. reflexivity.
Qed.

(** C8: a format outside v0, raw, cbor, protobuf, or a hash-function
    name outside the registry, makes put fail; the world is left as it
    was, so no digest was computed and nothing was written to the store.
    Once the node and the input file are there, the error is the
    unrecognized-format or unrecognized-function error. *)
Theorem put_rejects_unknown_names
  (req : Request) (re : ResponseEmitter) (w : World) :
  opt_format req ∉ ["cbor"; "protobuf"; "raw"; "v0"] \/
  mh_Names !! opt_mhtype req = None ->
  (exists err, blockPutRun req re w = (SetError err re, w)) /\
  (forall n file data,
      GetNode req = Ok n -> NextFile req = Ok file ->
      ReadAll file = Ok data -> FileClose file = Ok tt ->
      blockPutRun req re w =
        (SetError
           (if bool_decide (opt_format req ∈ ["cbor"; "protobuf"; "raw"; "v0"])
            then "unrecognized multihash function: " +:+ opt_mhtype req
            else "unrecognized format: " +:+ opt_format req) re, w)).
Proof.
  intros H. case_bool_decide as Hf.
  - destruct H as [H|H]; [contradiction|].
    apply blockPutRun_prefix_error. by apply putPrefix_bad_mhtype.
  - apply blockPutRun_prefix_error. by apply putPrefix_bad_format.
Qed.






(** *** block rm *)

Lemma decodeHashes_ok (hashes : list string) (acc cids : list Cid) :
  Forall2 (fun hash c => cid_Decode hash = Ok c) hashes cids ->
  decodeHashes hashes acc = Ok (acc ++ cids).
Proof.
  intros H. revert acc. induction H as [|hash c hashes cids Hd _ IH]; intros acc.
  - cbn. by rewrite app_nil_r.
  - cbn. rewrite Hd, IH, <- app_assoc. reflexivity.
Qed.

Lemma decodeHashes_err (hashes : list string) (acc : list Cid) :
  Exists (fun hash => is_Err (cid_Decode hash) = true) hashes ->
  exists pre hash post err,
    hashes = pre ++ hash :: post /\
    Forall (fun h => is_Err (cid_Decode h) = false) pre /\
    cid_Decode hash = Err err /\
    decodeHashes hashes acc =
      Err ("invalid content id: " +:+ hash +:+ " (" +:+ err +:+ ")").
Proof.
  revert acc. induction hashes as [|h hashes IH]; intros acc Hex.
  - inversion Hex.
  - cbn. destruct (cid_Decode h) as [c|err] eqn:Hd.
    + apply Exists_cons in Hex as [Hh|Hex]; [by rewrite Hd in Hh|].
      destruct (IH (acc ++ [c]) Hex) as (pre & hash & post & err & -> & Hpre & Hhash & ->).
      exists (h :: pre), hash, post, err. repeat split; auto.
      constructor; [by rewrite Hd|done].
    + exists [], h, hashes, err. repeat split; auto.
Qed.

Lemma forward_all (outcomes : list RemovalOutcome) (re : ResponseEmitter) :
  re_closed re = false ->
  fold_left forward outcomes re =
    mkRE (re_error re) (re_length re)
         (re_records re ++ map VRemovedBlock outcomes) false.
Proof.
  revert re. induction outcomes as [|o os IH]; intros re Hopen.
  - cbn. rewrite app_nil_r. destruct re; cbn in *; by subst.
  - cbn. unfold forward at 2, Emit. rewrite Hopen.
    rewrite IH by reflexivity. cbn. by rewrite <- app_assoc.
Qed.

Lemma rmBlocksLoop_force (pins : gset Cid) (quiet : bool) (cids : list Cid) (w : World) :
  let r := rmBlocksLoop pins (mkRmBlocksOpts quiet true) cids w in
  fst r = map Removed cids /\
  (forall c, Blockstore (snd r) !! c =
             if bool_decide (c ∈ cids) then None else Blockstore w !! c).
Proof.
  revert w. induction cids as [|c0 cids IH]; intros w; cbn.
  - split; [reflexivity|]. intros c. by rewrite bool_decide_eq_false_2 by set_solver.
  - unfold rmBlock. cbn. rewrite andb_false_r. cbn. rewrite andb_false_r.
    match goal with |- context [rmBlocksLoop ?p ?o ?l ?w1] =>
      specialize (IH w1); destruct (rmBlocksLoop p o l w1) as [os w2] end.
    cbn in *. destruct IH as [-> IH]. split; [reflexivity|].
    intros c. rewrite IH. destruct (decide (c = c0)) as [->|Hne].
    + rewrite (bool_decide_eq_true_2 (c0 ∈ c0 :: cids)) by set_solver.
      case_bool_decide; [reflexivity|]. by rewrite lookup_delete_eq.
    + rewrite lookup_delete_ne by done.
      repeat case_bool_decide; set_solver.
Qed.

Lemma rmBlocksLoop_noforce (pins : gset Cid) (quiet : bool) (cids : list Cid) (w : World) :
  let r := rmBlocksLoop pins (mkRmBlocksOpts quiet false) cids w in
  map outcome_cid (fst r) = cids /\
  length (List.filter skippedPinned (fst r)) =
    length (List.filter (fun c => bool_decide (c ∈ pins)) cids) /\
  (forall c, Blockstore (snd r) !! c =
             if bool_decide (c ∈ cids /\ c ∉ pins) then None
             else Blockstore w !! c).
Proof.
  revert w. induction cids as [|c0 cids IH]; intros w; cbn.
  - split; [reflexivity|]. split; [reflexivity|].
    intros c. by rewrite bool_decide_eq_false_2 by set_solver.
  - unfold rmBlock. cbn. rewrite !andb_true_r.
    destruct (bool_decide (c0 ∈ pins)) eqn:Hpin; cbn;
      [|destruct (bool_decide (Blockstore w !! c0 = None)) eqn:Habs; cbn];
      match goal with |- context [rmBlocksLoop ?p ?o ?l ?w1] =>
        specialize (IH w1); destruct (rmBlocksLoop p o l w1) as [os w2] end;
      cbn in *; destruct IH as (-> & -> & IH); (split; [reflexivity|]);
      (split; [reflexivity|]); intros c; rewrite IH.
    + apply bool_decide_eq_true_1 in Hpin.
      repeat case_bool_decide; set_solver.
    + apply bool_decide_eq_true_1 in Habs.
      apply bool_decide_eq_false_1 in Hpin.
      destruct (decide (c = c0)) as [->|Hne].
      * rewrite Habs. by repeat case_bool_decide.
      * repeat case_bool_decide; set_solver.
    + apply bool_decide_eq_false_1 in Hpin.
      destruct (decide (c = c0)) as [->|Hne].
      * rewrite lookup_delete_eq. repeat case_bool_decide; set_solver.
      * rewrite lookup_delete_ne by done. repeat case_bool_decide; set_solver.
Qed.

(** C3: with force set, block rm over well-formed identifiers hands one
    Removed outcome per identifier to the emitter, sets no error, and
    leaves none of the identifiers in the store, pinned or not; blocks
    it was not asked about stay. *)
Theorem rm_force_removes_all
  (req : Request) (re : ResponseEmitter) (w : World) (n : IpfsNode) (cids : list Cid) :
  GetNode req = Ok n ->
  Forall2 (fun hash c => cid_Decode hash = Ok c) (Arguments req) cids ->
  opt_force req = true ->
  re_closed re = false ->
  exists w',
    blockRmRun req re w =
      (mkRE (re_error re) (re_length re)
            (re_records re ++ map (fun c => VRemovedBlock (Removed c)) cids) false,
       w') /\
    (forall c, c ∈ cids -> Blockstore w' !! c = None) /\
    (forall c, c ∉ cids -> Blockstore w' !! c = Blockstore w !! c).
Proof.
  intros Hn Hdec Hforce Hopen. unfold blockRmRun, RmBlocks.
  rewrite Hn, (decodeHashes_ok _ [] cids Hdec), Hforce. cbn.
  pose proof (rmBlocksLoop_force (Pinning n) (opt_quiet req) cids w) as H.
  destruct (rmBlocksLoop _ _ cids w) as [os w']. cbn in H. destruct H as [-> Hst].
  exists w'. rewrite forward_all by done. rewrite map_map.
  split; [reflexivity|].
  split; intros c Hc; rewrite Hst.
  - by rewrite bool_decide_eq_true_2.
  - by rewrite bool_decide_eq_false_2.
Qed.

(** C4: without force, block rm over N well-formed identifiers hands N
    outcomes to the emitter, the j-th about the j-th identifier; as many
    of them are Skipped(pinned) as there are pinned identifiers; every
    pinned block is in the store afterwards exactly as before; every
    requested identifier that is not pinned is gone from the store,
    whatever happened to the others. *)
Theorem rm_bulk_isolation
  (req : Request) (re : ResponseEmitter) (w : World) (n : IpfsNode) (cids : list Cid) :
  GetNode req = Ok n ->
  Forall2 (fun hash c => cid_Decode hash = Ok c) (Arguments req) cids ->
  opt_force req = false ->
  re_closed re = false ->
  exists outcomes w',
    blockRmRun req re w =
      (mkRE (re_error re) (re_length re)
            (re_records re ++ map VRemovedBlock outcomes) false, w') /\
    length outcomes = length cids /\
    map outcome_cid outcomes = cids /\
    length (List.filter skippedPinned outcomes) =
      length (List.filter (fun c => bool_decide (c ∈ Pinning n)) cids) /\
    (forall c, c ∈ Pinning n -> Blockstore w' !! c = Blockstore w !! c) /\
    (forall c, c ∈ cids -> c ∉ Pinning n -> Blockstore w' !! c = None).
Proof.
  intros Hn Hdec Hforce Hopen. unfold blockRmRun, RmBlocks.
  rewrite Hn, (decodeHashes_ok _ [] cids Hdec), Hforce. cbn.
  pose proof (rmBlocksLoop_noforce (Pinning n) (opt_quiet req) cids w) as H.
  destruct (rmBlocksLoop _ _ cids w) as [os w']. cbn in H.
  destruct H as (Hids & Hcount & Hst).
  exists os, w'. rewrite forward_all by done.
  split; [reflexivity|].
  split; [by rewrite <- Hids, length_map|].
  split; [exact Hids|]. split; [exact Hcount|].
  split.
  - intros c Hc. rewrite Hst. rewrite bool_decide_eq_false_2; [done|]. tauto.
  - intros c Hc Hnp. rewrite Hst. by rewrite bool_decide_eq_true_2.
Qed.

(** C9: when an argument of block rm does not decode, the request fails
    and the world is left as it was: nothing is deleted, the removal does
    not start. Once the node is there, the error is the invalid-content-id
    error of the first argument that does not decode, whatever precedes
    it decoded. *)
Theorem rm_malformed_argument_fails
  (req : Request) (re : ResponseEmitter) (w : World) :
  Exists (fun hash => is_Err (cid_Decode hash) = true) (Arguments req) ->
  (exists err, blockRmRun req re w = (SetError err re, w)) /\
  (forall n, GetNode req = Ok n ->
     exists pre hash post err,
       Arguments req = pre ++ hash :: post /\
       Forall (fun h => is_Err (cid_Decode h) = false) pre /\
       cid_Decode hash = Err err /\
       blockRmRun req re w =
         (SetError ("invalid content id: " +:+ hash +:+ " (" +:+ err +:+ ")") re, w)).
Proof.
  intros Hex.
  destruct (decodeHashes_err (Arguments req) [] Hex)
    as (pre & hash & post & err & Hargs & Hpre & Hhash & Hdec).
  unfold blockRmRun. rewrite Hdec. split.
  - destruct (GetNode req); eauto.
  - intros n ->. exists pre, hash, post, err. auto.
Qed.

End Properties.

(** *** cat *)

Lemma wrap64_add (a b : Z) : wrap64 (wrap64 a + wrap64 b) = wrap64 (a + b).
Proof. unfold wrap64. by rewrite <- Z.add_mod by lia. Qed.

Lemma catLoop_ok (node : IpfsNode) (paths : list string)
  (acc readers : list DagReader) (len : Z) :
  Forall2 (fun fpath read => coreunix_Cat node fpath = Ok read) paths readers ->
  catLoop node paths acc (wrap64 len) =
    Ok (acc ++ readers, wrap64 (len + declaredTotal readers)).
Proof.
  intros H. revert acc len.
  induction H as [|fpath read paths readers Hr _ IH]; intros acc len; cbn.
  - by rewrite app_nil_r, Z.add_0_r.
  - rewrite Hr, wrap64_add, IH, <- app_assoc, Z.add_assoc. reflexivity.
Qed.

Lemma catLoop_err (node : IpfsNode) (paths : list string)
  (acc : list DagReader) (len : Z) :
  Exists (fun fpath => is_Err (coreunix_Cat node fpath) = true) paths ->
  exists pre fpath post err,
    paths = pre ++ fpath :: post /\
    Forall (fun p => is_Err (coreunix_Cat node p) = false) pre /\
    coreunix_Cat node fpath = Err err /\
    catLoop node paths acc len = Err err.
Proof.
  revert acc len. induction paths as [|p paths IH]; intros acc len Hex.
  - inversion Hex.
  - cbn. destruct (coreunix_Cat node p) as [read|err] eqn:Hp.
    + apply Exists_cons in Hex as [Hh|Hex]; [by rewrite Hp in Hh|].
      destruct (IH (acc ++ [read]) (wrap64 (len + wrap64 (dr_Size read))) Hex)
        as (pre & fpath & post & err & -> & Hpre & Hf & ->).
      exists (p :: pre), fpath, post, err. repeat split; auto.
      constructor; [by rewrite Hp|done].
    + exists [], p, paths, err. repeat split; auto.
Qed.

(** Bytes the readers still hold. *)
Lemma drain_skip_empty (fuel k : nat) (r : DagReader) (rest : list DagReader) :
  dr_rest r = [] -> drain fuel k (r :: rest) = drain fuel k rest.
Proof.
  intros Hr. destruct fuel as [|fuel]; [reflexivity|].
  cbn. unfold dag_Read. rewrite Hr. reflexivity.
Qed.

Lemma drain_all (k : nat) :
  (0 < k)%nat ->
  forall (n : nat) (readers : list DagReader) (fuel : nat),
    (length (concat (map dr_rest readers)) <= n)%nat ->
    (n < fuel)%nat ->
    drain fuel k readers = Some (concat (map dr_rest readers)).
Proof.
  intros Hk n. induction n as [n IHn] using lt_wf_ind.
  induction readers as [|r rest IHr]; intros fuel Hlen Hfuel.
  - destruct fuel; [lia|]. reflexivity.
  - destruct (dr_rest r) as [|b bs] eqn:Hr.
    + rewrite drain_skip_empty by done.
      cbn [map concat] in *. rewrite Hr in Hlen |- *. cbn [app] in *.
      apply IHr; done.
    + destruct fuel as [|fuel]; [lia|].
      cbn [map concat] in *. rewrite Hr, length_app in Hlen.
      cbn [length] in Hlen.
      cbn [drain multi_Read]. unfold dag_Read. rewrite Hr.
      destruct k as [|k]; [lia|]. cbn [take drop].
      rewrite (IHn (n - 1)%nat); [| lia | | lia].
      * cbn [map concat dr_rest app]. do 2 f_equal.
        by rewrite app_assoc, take_drop.
      * cbn [map concat dr_rest]. rewrite length_app, length_drop. lia.
Qed.

Lemma offline_routing_ready (node : IpfsNode) :
  (OnlineMode node = false -> SetupOfflineRouting node = Ok tt) ->
  (if negb (OnlineMode node) then SetupOfflineRouting node else Ok tt) = Ok tt.
Proof. destruct (OnlineMode node); cbn; auto. Qed.

Lemma catRun_ok
  (req : Request) (re : ResponseEmitter) (node : IpfsNode) (readers : list DagReader) :
  GetNode req = Ok node ->
  (OnlineMode node = false -> SetupOfflineRouting node = Ok tt) ->
  Forall2 (fun fpath read => coreunix_Cat node fpath = Ok read) (Arguments req) readers ->
  re_closed re = false ->
  catRun req re =
    mkRE (re_error re) (Some (wrap64 (declaredTotal readers)))
         (re_records re ++ [VMultiReader readers]) true.
Proof.
  intros Hn Hoff Hres Hopen. unfold catRun, cat.
  rewrite Hn, (offline_routing_ready node Hoff).
  rewrite (catLoop_ok node _ [] readers 0 Hres). cbn.
  unfold Emit. cbn. rewrite Hopen. reflexivity.
Qed.

(** C6 (amended): when every path resolves, cat declares the sum of the
    declared sizes reduced modulo 2^64, which is the sum itself when the
    sum is below 2^64; it emits one multi-reader over the readers in path
    order and closes; reading that multi-reader to the end, through any
    non-empty buffer, delivers the readers' bytes concatenated in path
    order. *)
Theorem cat_length_and_payload
  (req : Request) (re : ResponseEmitter) (node : IpfsNode) (readers : list DagReader) :
  GetNode req = Ok node ->
  (OnlineMode node = false -> SetupOfflineRouting node = Ok tt) ->
  Forall2 (fun fpath read => coreunix_Cat node fpath = Ok read) (Arguments req) readers ->
  re_closed re = false ->
  catRun req re =
    mkRE (re_error re) (Some (wrap64 (declaredTotal readers)))
         (re_records re ++ [VMultiReader readers]) true /\
  (0 <= declaredTotal readers < 2 ^ 64 ->
   wrap64 (declaredTotal readers) = declaredTotal readers) /\
  (forall k, (0 < k)%nat ->
     exists fuel, forall f, (fuel <= f)%nat ->
       drain f k readers = Some (concat (map dr_rest readers))).
Proof.
  intros Hn Hoff Hres Hopen. split; [|split].
  - by apply (catRun_ok req re node).
  - intros Hr. unfold wrap64. by apply Z.mod_small.
  - intros k Hk. exists (S (length (concat (map dr_rest readers)))).
    intros f Hf. eapply drain_all; [done| |]; [reflexivity|lia].
Qed.

(** C10: when a path of a cat request does not resolve, the request
    fails with the error of the first such path; the emitter gets that
    error and nothing else: no length is declared, no payload is emitted,
    whatever the paths before it resolved to. *)
Theorem cat_unresolved_path_fails
  (req : Request) (re : ResponseEmitter) (node : IpfsNode) :
  GetNode req = Ok node ->
  (OnlineMode node = false -> SetupOfflineRouting node = Ok tt) ->
  Exists (fun fpath => is_Err (coreunix_Cat node fpath) = true) (Arguments req) ->
  exists pre fpath post err,
    Arguments req = pre ++ fpath :: post /\
    Forall (fun p => is_Err (coreunix_Cat node p) = false) pre /\
    coreunix_Cat node fpath = Err err /\
    catRun req re = SetError err re.
Proof.
  intros Hn Hoff Hex.
  destruct (catLoop_err node (Arguments req) [] (wrap64 0) Hex)
    as (pre & fpath & post & err & Hargs & Hpre & Hf & Hloop).
  exists pre, fpath, post, err. repeat split; auto.
  unfold catRun, cat.
  by rewrite Hn, (offline_routing_ready node Hoff), Hloop.
Qed.

Lemma cat_progress_iff (enc : EncodingType) (res : Response) :
  existsb isBar (res_records res) = false ->
  progressAnnotated (postRun enc res) = true <->
  enc = CLI /\ progressBarMinSize <= res_Length res.
Proof.
  intros Hplain. unfold progressAnnotated, postRun.
  destruct enc; cbn; try (rewrite Hplain; split; [discriminate|intros [? _]; discriminate]).
  unfold catPostRunCLI.
  destruct (Z.ltb_spec (res_Length res) progressBarMinSize); cbn.
  - rewrite Hplain. split; [discriminate|lia].
  - split; auto.
Qed.

(** From the handler to the renderer: in CLI mode the payload of a
    resolved request is annotated exactly when the declared length is
    at least the threshold. *)
Lemma cat_cli_progress
  (req : Request) (node : IpfsNode) (readers : list DagReader) :
  GetNode req = Ok node ->
  (OnlineMode node = false -> SetupOfflineRouting node = Ok tt) ->
  Forall2 (fun fpath read => coreunix_Cat node fpath = Ok read) (Arguments req) readers ->
  progressAnnotated (postRun CLI (responseOf (catRun req newEmitter))) = true <->
  progressBarMinSize <= wrap64 (declaredTotal readers).
Proof.
  intros Hn Hoff Hres.
  rewrite (catRun_ok req newEmitter node readers Hn Hoff Hres eq_refl).
  rewrite cat_progress_iff by reflexivity. cbn. tauto.
Qed.

(** C1: what the CLI post-processing of cat does around the threshold. A
    payload declaring exactly 8388608 bytes is progress-annotated, as is
    one declaring 8388609; one declaring 8388607 is handed through. *)
Theorem cat_progress_at_threshold (readers : list DagReader) :
  progressAnnotated (postRun CLI (mkResponse 8388608 [VMultiReader readers] None)) = true /\
  progressAnnotated (postRun CLI (mkResponse 8388609 [VMultiReader readers] None)) = true /\
  progressAnnotated (postRun CLI (mkResponse 8388607 [VMultiReader readers] None)) = false.
Proof. repeat split. Qed.

(** * Examples *)

Lemma empty_key_never_reaches_store_witness :
  let req := Sample.request Sample.node [""] in
  Arguments req = [""] /\
  blockGetRun (L := Sample.libs) req newEmitter Sample.world =
    Some (SetError "zero length cid invalid" newEmitter, Sample.world).
Proof.
  intros req. split; [reflexivity|].
  apply (empty_key_never_reaches_store (L := Sample.libs) req newEmitter Sample.world []).
  reflexivity.
Defined.

Lemma put_rejects_unknown_names_witness :
  let req := Sample.withPutOptions "bogus" "sha2-256" (Sample.request Sample.node []) in
  opt_format req ∉ ["cbor"; "protobuf"; "raw"; "v0"] /\
  blockPutRun (L := Sample.libs) req newEmitter Sample.world =
    (SetError "unrecognized format: bogus" newEmitter, Sample.world).
Proof.
  intros req.
  assert (opt_format req ∉ ["cbor"; "protobuf"; "raw"; "v0"]) as Hf.
  { apply (bool_decide_unpack _). vm_compute. exact I. }
  split; [exact Hf|].
  destruct (put_rejects_unknown_names (L := Sample.libs) req newEmitter Sample.world
              (or_introl Hf)) as [_ H].
  exact (H Sample.node _ _ eq_refl eq_refl eq_refl eq_refl).
Defined.



Lemma rm_force_removes_all_witness :
  let req := Sample.withForce true (Sample.request Sample.node ["QmA"; "QmB"]) in
  GetNode req = Ok Sample.node /\
  Forall2 (fun hash c => Sample.decode hash = Ok c) (Arguments req)
          [Sample.cidA; Sample.cidB] /\
  opt_force req = true /\
  exists w',
    blockRmRun (L := Sample.libs) req newEmitter Sample.world =
      (mkRE None None
            [VRemovedBlock (Removed Sample.cidA); VRemovedBlock (Removed Sample.cidB)]
            false, w') /\
    (forall c, c ∈ [Sample.cidA; Sample.cidB] -> Blockstore w' !! c = None).
Proof.
  intros req.
  assert (Forall2 (fun hash c => Sample.decode hash = Ok c) (Arguments req)
                  [Sample.cidA; Sample.cidB]) as Hdec.
  { repeat constructor. }
  split; [reflexivity|]. split; [exact Hdec|]. split; [reflexivity|].
  destruct (rm_force_removes_all (L := Sample.libs) req newEmitter Sample.world
              Sample.node [Sample.cidA; Sample.cidB] eq_refl Hdec eq_refl eq_refl)
    as (w' & Hrun & Hgone & _).
  exists w'. split; [exact Hrun|exact Hgone].
Defined.

Lemma rm_bulk_isolation_witness :
  let req := Sample.request Sample.node ["QmA"; "QmB"] in
  GetNode req = Ok Sample.node /\
  Forall2 (fun hash c => Sample.decode hash = Ok c) (Arguments req)
          [Sample.cidA; Sample.cidB] /\
  opt_force req = false /\
  exists outcomes w',
    blockRmRun (L := Sample.libs) req newEmitter Sample.world =
      (mkRE None None (map VRemovedBlock outcomes) false, w') /\
    length outcomes = 2%nat /\
    length (List.filter skippedPinned outcomes) = 1%nat /\
    Blockstore w' !! Sample.cidA = Blockstore Sample.world !! Sample.cidA.
Proof.
  intros req.
  assert (Forall2 (fun hash c => Sample.decode hash = Ok c) (Arguments req)
                  [Sample.cidA; Sample.cidB]) as Hdec.
  { repeat constructor. }
  split; [reflexivity|]. split; [exact Hdec|]. split; [reflexivity|].
  destruct (rm_bulk_isolation (L := Sample.libs) req newEmitter Sample.world
              Sample.node [Sample.cidA; Sample.cidB] eq_refl Hdec eq_refl eq_refl)
    as (outcomes & w' & Hrun & Hlen & _ & Hcount & Hkept & _).
  exists outcomes, w'. split; [exact Hrun|]. split; [exact Hlen|].
  split; [exact Hcount|].
  apply Hkept. apply (bool_decide_unpack _). vm_compute. exact I.
Defined.

Lemma rm_malformed_argument_fails_witness :
  let req := Sample.request Sample.node ["QmB"; "zz"; "QmA"] in
  Exists (fun hash => is_Err (Sample.decode hash) = true) (Arguments req) /\
  exists err,
    blockRmRun (L := Sample.libs) req newEmitter Sample.world =
      (SetError err newEmitter, Sample.world).
Proof.
  intros req.
  assert (Exists (fun hash => is_Err (Sample.decode hash) = true) (Arguments req))
    as Hex.
  { apply Exists_cons_tl, Exists_cons_hd. reflexivity. }
  split; [exact Hex|].
  exact (proj1 (rm_malformed_argument_fails (L := Sample.libs) req newEmitter
                  Sample.world Hex)).
Defined.

Lemma cat_length_and_payload_witness :
  let req := Sample.request Sample.node ["/ipfs/QmA"; "/ipfs/QmB"] in
  let readers := [mkDagReader 2 (String.list_byte_of_string "hi");
                  mkDagReader 3 (String.list_byte_of_string "all")] in
  GetNode req = Ok Sample.node /\
  Forall2 (fun fpath read => coreunix_Cat Sample.node fpath = Ok read)
          (Arguments req) readers /\
  catRun req newEmitter = mkRE None (Some 5) [VMultiReader readers] true.
Proof.
  intros req readers.
  assert (Forall2 (fun fpath read => coreunix_Cat Sample.node fpath = Ok read)
                  (Arguments req) readers) as Hres.
  { repeat constructor. }
  split; [reflexivity|]. split; [exact Hres|].
  refine (proj1 (cat_length_and_payload req newEmitter Sample.node readers
                   eq_refl _ Hres eq_refl)).
  intros Hoff. vm_compute in Hoff. discriminate.
Defined.

Lemma cat_unresolved_path_fails_witness :
  let req := Sample.request Sample.node ["/ipfs/QmA"; "/ipfs/QmZ"; "/ipfs/QmB"] in
  GetNode req = Ok Sample.node /\
  Exists (fun fpath => is_Err (coreunix_Cat Sample.node fpath) = true) (Arguments req) /\
  exists pre fpath post err,
    Arguments req = pre ++ fpath :: post /\
    catRun req newEmitter = SetError err newEmitter.
Proof.
  intros req.
  assert (Exists (fun fpath => is_Err (coreunix_Cat Sample.node fpath) = true)
                 (Arguments req)) as Hex.
  { apply Exists_cons_tl, Exists_cons_hd. reflexivity. }
  split; [reflexivity|]. split; [exact Hex|].
  assert (OnlineMode Sample.node = false -> SetupOfflineRouting Sample.node = Ok tt)
    as Hoff by (intros _; reflexivity).
  destruct (cat_unresolved_path_fails req newEmitter Sample.node eq_refl Hoff Hex)
    as (pre & fpath & post & err & Hargs & _ & _ & Hrun).
  exists pre, fpath, post, err. split; [exact Hargs|exact Hrun].
Defined.

(** Two paths whose declared sizes are 2^64 - 1 and 1: the sizes add up
    to 2^64, the length cat declares is 0. *)
Lemma cat_declared_length_wraps_counterexample :
  let req := Sample.request Sample.hugeNode ["/ipfs/QmA"; "/ipfs/QmB"] in
  let readers := [mkDagReader (2 ^ 64 - 1) []; mkDagReader 1 []] in
  Forall2 (fun fpath read => coreunix_Cat Sample.hugeNode fpath = Ok read)
          (Arguments req) readers /\
  declaredTotal readers = 2 ^ 64 /\
  re_length (catRun req newEmitter) = Some 0 /\
  re_length (catRun req newEmitter) <> Some (declaredTotal readers).
Proof.
  intros req readers. split; [repeat constructor|].
  split; [reflexivity|]. split; [reflexivity|]. discriminate.
Qed.

(** * Further properties of the block commands *)

Section BlockProperties.
Context `{L : Libs}.

Lemma length_zero_iff_empty (s : string) :
  (String.length s =? 0)%nat = true <-> s = "".
Proof. destruct s; cbn; split; (done || discriminate). Qed.

Lemma getBlockForKey_unfold (req : Request) (skey : string) (w : World) :
  skey <> "" ->
  getBlockForKey req skey w =
    match GetNode req with
    | Err e => (Err e, w)
    | Ok _ =>
        match cid_Decode skey with
        | Err e => (Err e, w)
        | Ok c =>
            match Blockstore w !! c with
            | Some data => (Ok (mkBlock data c), log (EvGetBlock c) w)
            | None => (Err "blockservice: key not found", log (EvGetBlock c) w)
            end
        end
    end.
Proof.
  intros Hne. unfold getBlockForKey.
  destruct (String.length skey =? 0)%nat eqn:Hlen.
  { apply length_zero_iff_empty in Hlen. contradiction. }
  unfold bind, lift, ret, GetBlock.
  destruct (GetNode req); [|reflexivity].
  destruct (cid_Decode skey) as [c|]; [|reflexivity].
  destruct (Blockstore w !! c); reflexivity.
Qed.

(** X1: looking a block up never changes the block store, and issues at
    most one request to it, for the identifier the key decodes to. *)
Theorem getBlockForKey_reads_only (req : Request) (skey : string) (w : World) :
  Blockstore (snd (getBlockForKey req skey w)) = Blockstore w /\
  (trace (snd (getBlockForKey req skey w)) = trace w \/
   exists c, cid_Decode skey = Ok c /\
             trace (snd (getBlockForKey req skey w)) = trace w ++ [EvGetBlock c]).
Proof.
  destruct (decide (skey = "")) as [->|Hne].
  { rewrite getBlockForKey_empty. auto. }
  rewrite getBlockForKey_unfold by done.
  destruct (GetNode req); [|auto].
  destruct (cid_Decode skey) as [c|]; [|auto].
  destruct (Blockstore w !! c); cbn; eauto.
Qed.

(** X2: a lookup succeeds exactly when the key is not empty, the node is
    there, the key decodes, and the store holds a block under the decoded
    identifier; the block returned is that identifier with those bytes. *)
Theorem getBlockForKey_ok_iff
  (req : Request) (skey : string) (w w' : World) (b : Block) :
  getBlockForKey req skey w = (Ok b, w') <->
  skey <> "" /\
  (exists n, GetNode req = Ok n) /\
  cid_Decode skey = Ok (BlockCid b) /\
  Blockstore w !! BlockCid b = Some (RawData b) /\
  w' = log (EvGetBlock (BlockCid b)) w.
Proof.
  destruct (decide (skey = "")) as [->|Hne].
  { rewrite getBlockForKey_empty. split; [discriminate|]. by intros [? _]. }
  rewrite getBlockForKey_unfold by done. split.
  - destruct (GetNode req) as [n|]; [|discriminate].
    destruct (cid_Decode skey) as [c|]; [|discriminate].
    destruct (Blockstore w !! c) as [data|] eqn:Hl; [|discriminate].
    intros [= <- <-]. cbn. eauto 10.
  - intros (_ & [n ->] & -> & -> & ->). by destruct b.
Qed.

(** X3: for a key that is not empty, a missing node or a key that does
    not decode fails the lookup with that very error, the node's first,
    and the world is as before: the store is not asked. *)
Theorem getBlockForKey_fails_before_store
  (req : Request) (skey : string) (w : World) :
  skey <> "" ->
  (forall e, GetNode req = Err e -> getBlockForKey req skey w = (Err e, w)) /\
  (forall n e, GetNode req = Ok n -> cid_Decode skey = Err e ->
               getBlockForKey req skey w = (Err e, w)).
Proof.
  intros Hne. rewrite getBlockForKey_unfold by done. split.
  - by intros e ->.
  - by intros n e -> ->.
Qed.

(** X4: when the first argument decodes to an identifier the store holds,
    get emits a reader over exactly the stored bytes and stat emits the
    identifier's string with the number of those bytes; neither sets an
    error and both leave the store as it was. *)
Theorem block_found_is_served
  (req : Request) (re : ResponseEmitter) (w : World) (n : IpfsNode)
  (skey : string) (rest : list string) (c : Cid) (data : bytes) :
  Arguments req = skey :: rest ->
  skey <> "" ->
  GetNode req = Ok n ->
  cid_Decode skey = Ok c ->
  Blockstore w !! c = Some data ->
  re_closed re = false ->
  blockGetRun req re w =
    Some (mkRE (re_error re) (re_length re)
               (re_records re ++ [VBytesReader data]) false,
          mkWorld (Blockstore w) (trace w ++ [EvGetBlock c])) /\
  blockStatRun req re w =
    Some (mkRE (re_error re) (re_length re)
               (re_records re ++
                  [VBlockStat (mkBlockStat (cid_String c) (Z.of_nat (length data)))])
               false,
          mkWorld (Blockstore w) (trace w ++ [EvGetBlock c])).
Proof.
  intros Hargs Hne Hn Hdec Hst Hopen.
  unfold blockGetRun, blockStatRun. rewrite Hargs.
  rewrite getBlockForKey_unfold, Hn, Hdec, Hst by done.
  unfold Emit. rewrite Hopen. split; reflexivity.
Qed.

(** X5: when the first argument decodes to an identifier the store does
    not hold, get and stat both fail: an error is set, nothing is emitted,
    and the store is as it was. *)
Theorem block_missing_is_an_error
  (req : Request) (re : ResponseEmitter) (w : World) (n : IpfsNode)
  (skey : string) (rest : list string) (c : Cid) :
  Arguments req = skey :: rest ->
  skey <> "" ->
  GetNode req = Ok n ->
  cid_Decode skey = Ok c ->
  Blockstore w !! c = None ->
  exists e,
    blockGetRun req re w =
      Some (SetError e re, mkWorld (Blockstore w) (trace w ++ [EvGetBlock c])) /\
    blockStatRun req re w =
      Some (SetError e re, mkWorld (Blockstore w) (trace w ++ [EvGetBlock c])).
Proof.
  intros Hargs Hne Hn Hdec Hst.
  unfold blockGetRun, blockStatRun. rewrite Hargs.
  rewrite getBlockForKey_unfold, Hn, Hdec, Hst by done.
  eexists. split; reflexivity.
Qed.

(** *** block put, further *)

(** X6: put builds a prefix exactly when the format is one of cbor,
    protobuf, raw and v0, the hash-function name is in the registry and
    the length option is an integer. The prefix then has version 0 for
    v0 and 1 otherwise, the codec of the format, the registry's code for
    the name, and the length as given. *)
Theorem putPrefix_accepts_iff (req : Request) (w : World) (p : Prefix) :
  putPrefix req w = (Ok p, w) <->
  opt_format req ∈ ["cbor"; "protobuf"; "raw"; "v0"] /\
  Version p = (if String.eqb (opt_format req) "v0" then 0 else 1) /\
  Codec p = (if String.eqb (opt_format req) "cbor" then DagCBOR
             else if String.eqb (opt_format req) "raw" then Raw
             else DagProtobuf) /\
  mh_Names !! opt_mhtype req = Some (MhType p) /\
  opt_mhlen req = Ok (MhLength p).
Proof.
  rewrite putPrefix_unfold. split.
  - destruct (formatTable (opt_format req)) as [[v c]|] eqn:Ht; [|discriminate].
    destruct (mh_Names !! opt_mhtype req) as [t|]; [|discriminate].
    destruct (opt_mhlen req) as [l|]; [|discriminate].
    intros [= <-]. cbn.
    assert (formatTable (opt_format req) <> None) as Hin by congruence.
    rewrite formatTable_None in Hin. apply dec_stable in Hin.
    split; [exact Hin|]. revert Ht. unfold formatTable.
    destruct (String.eqb_spec (opt_format req) "cbor") as [Heq|_];
      [rewrite ?Heq; by intros [= <- <-]|].
    destruct (String.eqb_spec (opt_format req) "protobuf") as [Heq|_];
      [rewrite ?Heq; by intros [= <- <-]|].
    destruct (String.eqb_spec (opt_format req) "raw") as [Heq|_];
      [rewrite ?Heq; by intros [= <- <-]|].
    destruct (String.eqb_spec (opt_format req) "v0") as [Heq|_];
      [rewrite ?Heq; by intros [= <- <-]|discriminate].
  - intros (Hin & Hv & Hc & Ht & Hl). destruct p as [v c t l]. cbn in *.
    subst v c. rewrite Ht, Hl.
    repeat (apply elem_of_cons in Hin as [->|Hin]; [reflexivity|]).
    by apply elem_of_nil in Hin.
Qed.

Lemma Prefix_Sum_store (p : Prefix) (data : bytes) (w : World) :
  Blockstore (snd (Prefix_Sum p data w)) = Blockstore w.
Proof.
  unfold Prefix_Sum. destruct (mh_digest _ _ _); [|reflexivity].
  repeat case_match; reflexivity.
Qed.

Lemma Prefix_Sum_result (p : Prefix) (data : bytes) (w1 w2 : World) :
  fst (Prefix_Sum p data w1) = fst (Prefix_Sum p data w2).
Proof.
  unfold Prefix_Sum. destruct (mh_digest _ _ _); [|reflexivity].
  repeat case_match; reflexivity.
Qed.

(** The two ways a put can end, with what either leaves in the store,
    from whatever world it starts. *)
Lemma blockPutBody_cases (req : Request) :
  (exists e, forall w,
      fst (blockPutBody req w) = Err e /\
      Blockstore (snd (blockPutBody req w)) = Blockstore w) \/
  (exists file data c,
      NextFile req = Ok file /\ ReadAll file = Ok data /\
      forall w,
        fst (blockPutBody req w) =
          Ok (VBlockStat (mkBlockStat (cid_String c) (Z.of_nat (length data)))) /\
        Blockstore (snd (blockPutBody req w)) = <[c := data]> (Blockstore w)).
Proof.
  unfold blockPutBody, bind, lift.
  destruct (GetNode req) as [n|e]; [|left; by exists e].
  destruct (NextFile req) as [file|e]; [|left; by exists e].
  destruct (ReadAll file) as [data|e] eqn:Hdata; [|left; by exists e].
  destruct (FileClose file) as [[]|e]; [|left; by exists e].
  pose proof (putPrefix_unfold req) as Hp.
  match type of Hp with
  | forall w, _ = (?t, w) => set (pp := t) in Hp; clearbody pp
  end.
  destruct pp as [p|e].
  2:{ left. exists e. intros w. by rewrite Hp. }
  pose proof (Prefix_Sum_store p data) as Hst.
  pose proof (Prefix_Sum_result p data) as Hres.
  destruct (fst (Prefix_Sum p data (mkWorld ∅ []))) as [c|e] eqn:Hsum.
  2:{ left. exists e. intros w. rewrite Hp.
      specialize (Hst w). specialize (Hres w (mkWorld ∅ [])).
      rewrite Hsum in Hres. destruct (Prefix_Sum p data w) as [r w1].
      cbn in *. subst r. done. }
  unfold NewBlockWithCid, AddBlock, ret. cbn.
  destruct (AddBlockFault n c) as [e|] eqn:Hfault.
  - left. exists e. intros w. rewrite Hp.
    specialize (Hst w). specialize (Hres w (mkWorld ∅ [])).
    rewrite Hsum in Hres. destruct (Prefix_Sum p data w) as [r w1].
    cbn in *. subst r. by rewrite Hfault.
  - right. exists file, data, c. split; [reflexivity|]. split; [exact Hdata|].
    intros w. rewrite Hp.
    specialize (Hst w). specialize (Hres w (mkWorld ∅ [])).
    rewrite Hsum in Hres. destruct (Prefix_Sum p data w) as [r w1].
    cbn in *. subst r. rewrite Hfault. cbn. by rewrite Hst.
Qed.

(** X7: a put either fails, setting an error, emitting nothing and
    leaving the store as it was, or emits one stat, whose size is the
    number of input bytes and whose key is the string of an identifier,
    and leaves the store with the input bytes added under that identifier
    and every other entry as before. *)
Theorem blockPut_writes_only_on_success
  (req : Request) (re : ResponseEmitter) (w : World) :
  re_closed re = false ->
  (exists e,
      fst (blockPutRun req re w) = SetError e re /\
      Blockstore (snd (blockPutRun req re w)) = Blockstore w) \/
  (exists file data c,
      NextFile req = Ok file /\ ReadAll file = Ok data /\
      fst (blockPutRun req re w) =
        mkRE (re_error re) (re_length re)
             (re_records re ++
                [VBlockStat (mkBlockStat (cid_String c) (Z.of_nat (length data)))])
             false /\
      Blockstore (snd (blockPutRun req re w)) = <[c := data]> (Blockstore w)).
Proof.
  intros Hopen. unfold blockPutRun.
  destruct (blockPutBody_cases req) as [[e H]|(file & data & c & Hf & Hd & H)];
    specialize (H w); destruct (blockPutBody req w) as [r w']; cbn in H;
    destruct H as [-> Hst].
  - left. exists e. auto.
  - right. exists file, data, c. unfold Emit. rewrite Hopen. auto.
Qed.

(** X8: put is idempotent. When a put has emitted its stat, the same
    request run again on the world it left emits the same stat, sets no
    error either, and leaves the store as the first run left it. *)
Theorem blockPut_idempotent
  (req : Request) (re re1 : ResponseEmitter) (w w1 : World) :
  re_closed re = false ->
  blockPutRun req re w = (re1, w1) ->
  re_records re1 <> re_records re ->
  fst (blockPutRun req re w1) = re1 /\
  Blockstore (snd (blockPutRun req re w1)) = Blockstore w1.
Proof.
  intros Hopen Hrun Hemit. unfold blockPutRun in *.
  destruct (blockPutBody_cases req) as [[e H]|(file & data & c & Hf & Hd & H)].
  - exfalso. specialize (H w). destruct (blockPutBody req w) as [r w'].
    cbn in H. destruct H as [-> _]. injection Hrun as <- <-. by apply Hemit.
  - pose proof (H w) as H0. pose proof (H w1) as H1.
    destruct (blockPutBody req w) as [r w']. cbn in H0. destruct H0 as [-> Hst0].
    destruct (blockPutBody req w1) as [r1 w1']. cbn in H1. destruct H1 as [-> Hst1].
    injection Hrun as <- <-. cbn. split; [reflexivity|].
    rewrite Hst1, Hst0. apply insert_insert_eq.
Qed.

(** X9: what put stores, get returns. When a put goes through and the
    string of the identifier it stored under decodes back to that
    identifier, put emits the stat with that string as key, the text
    encoder prints the key on one line, and a get of the key on the world
    put left emits a reader over exactly the input bytes. *)
Theorem put_then_get_roundtrip
  (req req' : Request) (w w0 : World) (n n' : IpfsNode) (file : File)
  (data : bytes) (p : Prefix) (c : Cid) (rest : list string) :
  GetNode req = Ok n ->
  NextFile req = Ok file ->
  ReadAll file = Ok data ->
  FileClose file = Ok tt ->
  putPrefix req w = (Ok p, w) ->
  Prefix_Sum p data w = (Ok c, w0) ->
  AddBlockFault n c = None ->
  cid_String c <> "" ->
  cid_Decode (cid_String c) = Ok c ->
  GetNode req' = Ok n' ->
  Arguments req' = cid_String c :: rest ->
  exists re1 w1,
    blockPutRun req newEmitter w = (re1, w1) /\
    re_error re1 = None /\
    re_records re1 =
      [VBlockStat (mkBlockStat (cid_String c) (Z.of_nat (length data)))] /\
    option_map blockPutTextEncoder (head (re_records re1)) =
      Some (Some (cid_String c +:+ LF)) /\
    blockGetRun req' newEmitter w1 =
      Some (mkRE None None [VBytesReader data] false,
            mkWorld (Blockstore w1) (trace w1 ++ [EvGetBlock c])).
Proof.
  intros Hn Hfile Hdata Hclose Hp Hsum Hfault Hne Hdec Hn' Hargs.
  unfold blockPutRun, blockPutBody, bind, lift.
  rewrite Hn, Hfile, Hdata, Hclose, Hp, Hsum.
  unfold NewBlockWithCid, AddBlock, ret. cbn. rewrite Hfault. cbn.
  eexists _, _. split; [reflexivity|]. cbn.
  split; [reflexivity|]. split; [reflexivity|]. split; [reflexivity|].
  unfold blockGetRun. rewrite Hargs.
  rewrite getBlockForKey_unfold, Hn', Hdec by done. cbn.
  by rewrite lookup_insert_eq.
Qed.

End BlockProperties.

(** *** Rendering a stat *)

Lemma string_length_append (s t : string) :
  String.length (s +:+ t) = (String.length s + String.length t)%nat.
Proof. induction s as [|a s IH]; simpl; [reflexivity|by f_equal]. Qed.

Lemma append_cancel_r (s1 s2 t : string) : s1 +:+ t = s2 +:+ t -> s1 = s2.
Proof.
  revert s2. induction s1 as [|a s1 IH]; intros [|b s2] H; cbn in H.
  - reflexivity.
  - apply (f_equal String.length) in H.
    change (String.length t = S (String.length (s2 +:+ t))) in H.
    rewrite string_length_append in H. lia.
  - apply (f_equal String.length) in H.
    change (S (String.length (s1 +:+ t)) = String.length t) in H.
    rewrite string_length_append in H. lia.
  - injection H as -> H. f_equal. by apply IH.
Qed.

Lemma append_LF_split (k1 k2 r1 r2 : string) :
  noLF k1 = true -> noLF k2 = true ->
  k1 +:+ LF +:+ r1 = k2 +:+ LF +:+ r2 -> k1 = k2 /\ r1 = r2.
Proof.
  unfold LF. revert k2.
  induction k1 as [|a k1 IH]; intros [|b k2] H1 H2 H; simpl in *.
  - injection H as H. auto.
  - injection H as Hb _. subst b. by rewrite Ascii.eqb_refl in H2.
  - injection H as Ha _. subst a. by rewrite Ascii.eqb_refl in H1.
  - injection H as Hab H. subst b.
    apply andb_prop in H1 as [_ H1]. apply andb_prop in H2 as [_ H2].
    destruct (IH k2 H1 H2 H) as [-> ->]. auto.
Qed.

Lemma fmt_d_inj (z1 z2 : Z) : fmt_d z1 = fmt_d z2 -> z1 = z2.
Proof.
  unfold fmt_d. intros H.
  apply (f_equal DecimalString.NilEmpty.int_of_string) in H.
  rewrite !DecimalString.NilEmpty.isi in H.
  injection H as H. by apply DecimalZ.to_int_inj.
Qed.

(** X10: the text of a stat determines it. Two stats whose keys hold no
    line feed and whose [String] coincide have the same key and the same
    size. *)
Theorem BlockStat_String_inj (a b : BlockStat) :
  noLF (Key a) = true ->
  noLF (Key b) = true ->
  BlockStat_String a = BlockStat_String b ->
  a = b.
Proof.
  intros Ha Hb H. destruct a as [ka sa], b as [kb sb]. simpl in *.
  unfold BlockStat_String in H. simpl in H.
  injection H as H.
  apply append_LF_split in H as [-> H]; [|done|done].
  simpl in H. injection H as H.
  change ("" +:+ fmt_d sa +:+ LF) with (fmt_d sa +:+ LF) in H.
  change ("" +:+ fmt_d sb +:+ LF) with (fmt_d sb +:+ LF) in H.
  apply append_cancel_r in H. apply fmt_d_inj in H. by subst.
Qed.

(** * Further properties of cat *)

Lemma declaredTotal_app (r1 r2 : list DagReader) :
  declaredTotal (r1 ++ r2) = declaredTotal r1 + declaredTotal r2.
Proof.
  induction r1 as [|r r1 IH]; [reflexivity|].
  change (dr_Size r + declaredTotal (r1 ++ r2) =
          dr_Size r + declaredTotal r1 + declaredTotal r2).
  rewrite IH. lia.
Qed.

Lemma catLoop_inv (node : IpfsNode) (paths : list string)
  (acc readers : list DagReader) (l len : Z) :
  catLoop node paths acc (wrap64 l) = Ok (readers, len) ->
  exists rs,
    readers = acc ++ rs /\
    Forall2 (fun fpath read => coreunix_Cat node fpath = Ok read) paths rs /\
    len = wrap64 (l + declaredTotal rs).
Proof.
  revert acc l. induction paths as [|fpath paths IH]; intros acc l; cbn.
  - intros [= <- <-]. exists []. rewrite app_nil_r, Z.add_0_r. auto.
  - destruct (coreunix_Cat node fpath) as [read|] eqn:Hr; [|discriminate].
    rewrite wrap64_add. intros H.
    destruct (IH _ _ H) as (rs & -> & Hrs & ->).
    exists (read :: rs). rewrite <- app_assoc. cbn.
    split; [reflexivity|]. split; [by constructor|]. by rewrite Z.add_assoc.
Qed.

Lemma cat_inv (node : IpfsNode) (paths : list string)
  (readers : list DagReader) (len : Z) :
  cat node paths = Ok (readers, len) ->
  Forall2 (fun fpath read => coreunix_Cat node fpath = Ok read) paths readers /\
  len = wrap64 (declaredTotal readers).
Proof.
  unfold cat. intros H. apply catLoop_inv in H as (rs & -> & Hrs & ->). auto.
Qed.

(** X11: cat returns readers and a length exactly when every path
    resolves; the readers are then the resolutions, path by path and in
    path order, and the length is the sum of their declared sizes in
    64-bit unsigned arithmetic. *)
Theorem cat_ok_iff (node : IpfsNode) (paths : list string)
  (readers : list DagReader) (len : Z) :
  cat node paths = Ok (readers, len) <->
  Forall2 (fun fpath read => coreunix_Cat node fpath = Ok read) paths readers /\
  len = wrap64 (declaredTotal readers).
Proof.
  split; [apply cat_inv|]. intros [H ->]. unfold cat.
  by rewrite (catLoop_ok node paths [] readers 0 H).
Qed.

(** X12: cat composes. The readers of two path lists put one after the
    other are the readers of the first followed by those of the second,
    and the length is the sum of the two lengths, wrapped to 64 bits. *)
Theorem cat_app (node : IpfsNode) (p1 p2 : list string)
  (r1 r2 : list DagReader) (l1 l2 : Z) :
  cat node p1 = Ok (r1, l1) ->
  cat node p2 = Ok (r2, l2) ->
  cat node (p1 ++ p2) = Ok (r1 ++ r2, wrap64 (l1 + l2)).
Proof.
  intros H1 H2. apply cat_inv in H1 as [H1 ->]. apply cat_inv in H2 as [H2 ->].
  unfold cat. rewrite (catLoop_ok node (p1 ++ p2) [] (r1 ++ r2) 0).
  - by rewrite declaredTotal_app, wrap64_add.
  - by apply Forall2_app.
Qed.

(** X13: whatever the sizes declared, the length cat returns is a 64-bit
    unsigned value, and cat returns one reader per path. *)
Theorem cat_length_in_range (node : IpfsNode) (paths : list string)
  (readers : list DagReader) (len : Z) :
  cat node paths = Ok (readers, len) ->
  0 <= len < 2 ^ 64 /\ length readers = length paths.
Proof.
  intros H. apply cat_inv in H as [H ->]. split.
  - unfold wrap64. apply Z.mod_pos_bound. lia.
  - symmetry. by eapply Forall2_length.
Qed.

Lemma cat_total (node : IpfsNode) (paths : list string) :
  (exists e, cat node paths = Err e) \/
  (exists readers,
      Forall2 (fun fpath read => coreunix_Cat node fpath = Ok read) paths readers /\
      cat node paths = Ok (readers, wrap64 (declaredTotal readers))).
Proof.
  destruct (cat node paths) as [[readers len]|e] eqn:H; [|eauto].
  right. apply cat_inv in H as [H ->]. eauto.
Qed.

(** X14: the two ways a cat request can end. Either an error is set and
    nothing else happens to the emitter: no length, no record, and the
    stream stays open. Or every path resolved, and the emitter has the
    length, one more record, the multi-reader over the resolutions, and is
    closed, with no error added. *)
Theorem catRun_outcomes (req : Request) (re : ResponseEmitter) :
  re_closed re = false ->
  (exists e, catRun req re = SetError e re) \/
  (exists node readers,
      GetNode req = Ok node /\
      Forall2 (fun fpath read => coreunix_Cat node fpath = Ok read)
              (Arguments req) readers /\
      catRun req re =
        mkRE (re_error re) (Some (wrap64 (declaredTotal readers)))
             (re_records re ++ [VMultiReader readers]) true).
Proof.
  intros Hopen. unfold catRun.
  destruct (GetNode req) as [node|e]; [|eauto].
  destruct (if negb (OnlineMode node) then SetupOfflineRouting node else Ok tt)
    as [[]|e]; [|eauto].
  destruct (cat_total node (Arguments req)) as [[e ->]|(readers & Hres & ->)];
    [eauto|].
  right. exists node, readers. split; [reflexivity|]. split; [exact Hres|].
  unfold Emit. cbn. by rewrite Hopen.
Qed.

(** X15: on an offline node whose offline routing cannot be set up, cat
    fails with the set-up error whatever the paths are, resolvable or not;
    on an online node the set-up is not consulted. *)
Theorem catRun_offline_setup
  (req : Request) (re : ResponseEmitter) (node : IpfsNode) (e : string) :
  GetNode req = Ok node ->
  SetupOfflineRouting node = Err e ->
  (OnlineMode node = false -> catRun req re = SetError e re) /\
  (OnlineMode node = true ->
   catRun req re =
     match cat node (Arguments req) with
     | Err err => SetError err re
     | Ok (readers, len) =>
         Close (snd (Emit (VMultiReader readers) (SetLength len re)))
     end).
Proof.
  intros Hn He. unfold catRun. rewrite Hn.
  split; intros ->; cbn; [by rewrite He|].
  by destruct (cat node (Arguments req)) as [[]|].
Qed.

(** X16: from the handler through the CLI post-processing. For a request
    whose paths resolve, below the threshold the response is the declared
    length with the multi-reader; from the threshold on it is one progress
    reader around that same multi-reader, whose total is the declared
    length when that is below 2^63 and the length minus 2^64, a negative
    number, otherwise. Other encodings leave the response alone. *)
Theorem cat_cli_bar_wraps_payload
  (req : Request) (node : IpfsNode) (readers : list DagReader) :
  GetNode req = Ok node ->
  (OnlineMode node = false -> SetupOfflineRouting node = Ok tt) ->
  Forall2 (fun fpath read => coreunix_Cat node fpath = Ok read) (Arguments req) readers ->
  let len := wrap64 (declaredTotal readers) in
  postRun CLI (responseOf (catRun req newEmitter)) =
    (if len <? progressBarMinSize
     then mkResponse len [VMultiReader readers] None
     else mkResponse 0
            [VBar (if len <? 2 ^ 63 then len else len - 2 ^ 64)
                  (VMultiReader readers)] None) /\
  (len <? 2 ^ 63 = false -> len - 2 ^ 64 < 0) /\
  (forall enc, enc <> CLI ->
     postRun enc (responseOf (catRun req newEmitter)) =
       mkResponse len [VMultiReader readers] None).
Proof.
  intros Hn Hoff Hres len.
  rewrite (catRun_ok req newEmitter node readers Hn Hoff Hres eq_refl).
  unfold responseOf. cbn. fold len.
  assert (0 <= len < 2 ^ 64) as Hlen by (apply Z.mod_pos_bound; lia).
  split; [|split].
  - unfold postRun, catPostRunCLI. cbn.
    destruct (len <? progressBarMinSize); [reflexivity|].
    unfold int64, wrap64. rewrite Z.mod_small by exact Hlen. reflexivity.
  - intros _. lia.
  - intros enc Henc. by destruct enc.
Qed.

(** X17: a failed cat goes through the CLI post-processing untouched.
    When the handler has set an error, no length was declared, so the
    response reads length 0, stays below the threshold and is returned as
    it is: the error is still on it and no progress reader is made. *)
Theorem cat_error_survives_postRun (req : Request) :
  re_error (catRun req newEmitter) <> None ->
  postRun CLI (responseOf (catRun req newEmitter)) =
    mkResponse 0 [] (re_error (catRun req newEmitter)) /\
  progressAnnotated (postRun CLI (responseOf (catRun req newEmitter))) = false.
Proof.
  intros Herr. revert Herr. unfold catRun.
  destruct (GetNode req) as [node|e]; [|by intros _].
  destruct (if negb (OnlineMode node) then SetupOfflineRouting node else Ok tt)
    as [[]|e]; [|by intros _].
  destruct (cat node (Arguments req)) as [[readers len]|e]; [|by intros _].
  cbn. contradiction.
Qed.

(** * Further properties of block rm *)

Section RmProperties.
Context `{L : Libs}.

Lemma decodeHashes_inv (hashes : list string) (acc cids : list Cid) :
  decodeHashes hashes acc = Ok cids ->
  exists cs,
    cids = acc ++ cs /\
    Forall2 (fun hash c => cid_Decode hash = Ok c) hashes cs.
Proof.
  revert acc. induction hashes as [|hash hashes IH]; intros acc; cbn.
  - intros [= <-]. exists []. by rewrite app_nil_r.
  - destruct (cid_Decode hash) as [c|] eqn:Hd; [|discriminate].
    intros H. destruct (IH _ H) as (cs & -> & Hcs).
    exists (c :: cs). rewrite <- app_assoc. split; [reflexivity|by constructor].
Qed.

(** X18: the decoding loop of block rm succeeds exactly when every
    argument decodes; the identifiers come out one per argument, in
    argument order, after those already collected. *)
Theorem decodeHashes_ok_iff (hashes : list string) (acc cids : list Cid) :
  decodeHashes hashes acc = Ok cids <->
  exists cs,
    cids = acc ++ cs /\
    Forall2 (fun hash c => cid_Decode hash = Ok c) hashes cs.
Proof.
  split; [apply decodeHashes_inv|].
  intros (cs & -> & H). by apply decodeHashes_ok.
Qed.

End RmProperties.

(** * Further examples *)

Lemma getBlockForKey_fails_before_store_witness :
  "zz" <> "" /\
  getBlockForKey (L := Sample.libs) (Sample.request Sample.node ["zz"]) "zz"
                 Sample.world =
    (Err "selected encoding not supported", Sample.world).
Proof.
  assert ("zz" <> "") as Hne by discriminate.
  split; [exact Hne|].
  exact (proj2 (getBlockForKey_fails_before_store (L := Sample.libs)
                  (Sample.request Sample.node ["zz"]) "zz" Sample.world Hne)
               Sample.node _ eq_refl eq_refl).
Defined.

Lemma block_found_is_served_witness :
  let req := Sample.request Sample.node ["QmB"] in
  Sample.decode "QmB" = Ok Sample.cidB /\
  Blockstore Sample.world !! Sample.cidB = Some (String.list_byte_of_string "b") /\
  blockStatRun (L := Sample.libs) req newEmitter Sample.world =
    Some (mkRE None None [VBlockStat (mkBlockStat "QmB" 1)] false,
          mkWorld (Blockstore Sample.world) [EvGetBlock Sample.cidB]).
Proof.
  intros req. split; [reflexivity|]. split; [reflexivity|].
  assert ("QmB" <> "") as Hne by discriminate.
  exact (proj2 (block_found_is_served (L := Sample.libs) req newEmitter Sample.world
                  Sample.node "QmB" [] Sample.cidB (String.list_byte_of_string "b")
                  eq_refl Hne eq_refl eq_refl eq_refl eq_refl)).
Defined.

Lemma block_missing_is_an_error_witness :
  let req := Sample.request Sample.node ["QmC"] in
  let cidC := mkCid 0 DagProtobuf SHA2_256 (String.list_byte_of_string "C") in
  Sample.decode "QmC" = Ok cidC /\
  Blockstore Sample.world !! cidC = None /\
  exists e,
    blockGetRun (L := Sample.libs) req newEmitter Sample.world =
      Some (SetError e newEmitter,
            mkWorld (Blockstore Sample.world) [EvGetBlock cidC]).
Proof.
  intros req cidC. split; [reflexivity|]. split; [reflexivity|].
  assert ("QmC" <> "") as Hne by discriminate.
  destruct (block_missing_is_an_error (L := Sample.libs) req newEmitter Sample.world
              Sample.node "QmC" [] cidC eq_refl Hne eq_refl eq_refl eq_refl)
    as (e & Hget & _).
  exists e. exact Hget.
Defined.

Lemma blockPut_writes_only_on_success_witness :
  let req := Sample.request Sample.node [] in
  let out := blockPutRun (L := Sample.libs) req newEmitter Sample.world in
  re_closed newEmitter = false /\
  ((exists e, fst out = SetError e newEmitter /\
              Blockstore (snd out) = Blockstore Sample.world) \/
   (exists file data c,
       NextFile req = Ok file /\ ReadAll file = Ok data /\
       fst out =
         mkRE None None
              [VBlockStat (mkBlockStat (Sample.render c) (Z.of_nat (length data)))]
              false /\
       Blockstore (snd out) = <[c := data]> (Blockstore Sample.world))).
Proof.
  intros req out. split; [reflexivity|].
  exact (blockPut_writes_only_on_success (L := Sample.libs) req newEmitter
           Sample.world eq_refl).
Defined.

Lemma blockPut_idempotent_witness :
  let req := Sample.request Sample.node [] in
  let out := blockPutRun (L := Sample.libs) req newEmitter Sample.world in
  re_records (fst out) <> [] /\
  fst (blockPutRun (L := Sample.libs) req newEmitter (snd out)) = fst out /\
  Blockstore (snd (blockPutRun (L := Sample.libs) req newEmitter (snd out))) =
    Blockstore (snd out).
Proof.
  intros req out.
  assert (re_records (fst out) <> re_records newEmitter) as Hemit.
  { vm_compute. discriminate. }
  split; [exact Hemit|].
  apply (blockPut_idempotent (L := Sample.libs) req newEmitter (fst out)
           Sample.world (snd out) eq_refl); [|exact Hemit].
  apply surjective_pairing.
Defined.

Lemma put_then_get_roundtrip_witness :
  let req := Sample.request Sample.node [] in
  let data := String.list_byte_of_string "data" in
  let c := mkCid 0 DagProtobuf SHA2_256 (data ++ replicate 28 Byte.x00) in
  let req' := Sample.request Sample.node [Sample.render c] in
  ReadAll (mkFile (Ok data) (Ok tt)) = Ok data /\
  Sample.decode (Sample.render c) = Ok c /\
  exists re1 w1,
    blockPutRun (L := Sample.libs) req newEmitter Sample.world = (re1, w1) /\
    blockGetRun (L := Sample.libs) req' newEmitter w1 =
      Some (mkRE None None [VBytesReader data] false,
            mkWorld (Blockstore w1) (trace w1 ++ [EvGetBlock c])).
Proof.
  intros req data c req'. split; [reflexivity|]. split; [reflexivity|].
  assert (Sample.render c <> "") as Hne by discriminate.
  destruct (put_then_get_roundtrip (L := Sample.libs) req req' Sample.world
              (mkWorld (Blockstore Sample.world) [EvDigest SHA2_256 32 data])
              Sample.node Sample.node (mkFile (Ok data) (Ok tt)) data
              (mkPrefix 0 DagProtobuf SHA2_256 (-1)) c []
              eq_refl eq_refl eq_refl eq_refl eq_refl eq_refl eq_refl Hne
              eq_refl eq_refl eq_refl)
    as (re1 & w1 & Hput & _ & _ & _ & Hget).
  exists re1, w1. split; [exact Hput|exact Hget].
Defined.

Lemma BlockStat_String_inj_witness :
  noLF "QmB" = true /\
  BlockStat_String (mkBlockStat "QmB" 12) = BlockStat_String (mkBlockStat "QmB" (7 + 5)) /\
  mkBlockStat "QmB" 12 = mkBlockStat "QmB" (7 + 5).
Proof.
  split; [reflexivity|]. split; [reflexivity|].
  apply BlockStat_String_inj; reflexivity.
Defined.

Lemma cat_app_witness :
  cat Sample.node ["/ipfs/QmA"] =
    Ok ([mkDagReader 2 (String.list_byte_of_string "hi")], 2) /\
  cat Sample.node ["/ipfs/QmB"] =
    Ok ([mkDagReader 3 (String.list_byte_of_string "all")], 3) /\
  cat Sample.node (["/ipfs/QmA"] ++ ["/ipfs/QmB"]) =
    Ok ([mkDagReader 2 (String.list_byte_of_string "hi")] ++
        [mkDagReader 3 (String.list_byte_of_string "all")], wrap64 (2 + 3)).
Proof.
  split; [reflexivity|]. split; [reflexivity|].
  apply cat_app; reflexivity.
Defined.

Lemma cat_length_in_range_witness :
  cat Sample.hugeNode ["/ipfs/QmA"; "/ipfs/QmB"] =
    Ok ([mkDagReader (2 ^ 64 - 1) []; mkDagReader 1 []], 0) /\
  0 <= 0 < 2 ^ 64.
Proof.
  split; [reflexivity|].
  exact (proj1 (cat_length_in_range Sample.hugeNode ["/ipfs/QmA"; "/ipfs/QmB"]
                  [mkDagReader (2 ^ 64 - 1) []; mkDagReader 1 []] 0 eq_refl)).
Defined.

Lemma catRun_outcomes_witness :
  let req := Sample.request Sample.node ["/ipfs/QmA"] in
  re_closed newEmitter = false /\
  ((exists e, catRun req newEmitter = SetError e newEmitter) \/
   (exists node readers,
       GetNode req = Ok node /\
       Forall2 (fun fpath read => coreunix_Cat node fpath = Ok read)
               (Arguments req) readers /\
       catRun req newEmitter =
         mkRE None (Some (wrap64 (declaredTotal readers)))
              [VMultiReader readers] true)).
Proof.
  intros req. split; [reflexivity|].
  exact (catRun_outcomes req newEmitter eq_refl).
Defined.

Lemma catRun_offline_setup_witness :
  let node := mkNode false (Err "no offline routing") ∅ (Dag Sample.node)
                     (fun _ => None) in
  let req := Sample.request node ["/ipfs/QmA"] in
  OnlineMode node = false /\
  SetupOfflineRouting node = Err "no offline routing" /\
  catRun req newEmitter = SetError "no offline routing" newEmitter.
Proof.
  intros node req. split; [reflexivity|]. split; [reflexivity|].
  exact (proj1 (catRun_offline_setup req newEmitter node "no offline routing"
                  eq_refl eq_refl) eq_refl).
Defined.

Lemma cat_cli_bar_wraps_payload_witness :
  let req := Sample.request Sample.node ["/ipfs/QmA"; "/ipfs/QmB"] in
  let readers := [mkDagReader 2 (String.list_byte_of_string "hi");
                  mkDagReader 3 (String.list_byte_of_string "all")] in
  Forall2 (fun fpath read => coreunix_Cat Sample.node fpath = Ok read)
          (Arguments req) readers /\
  postRun CLI (responseOf (catRun req newEmitter)) =
    mkResponse 5 [VMultiReader readers] None.
Proof.
  intros req readers.
  assert (Forall2 (fun fpath read => coreunix_Cat Sample.node fpath = Ok read)
                  (Arguments req) readers) as Hres.
  { repeat constructor. }
  split; [exact Hres|].
  refine (proj1 (cat_cli_bar_wraps_payload req Sample.node readers eq_refl _ Hres)).
  intros Hoff. vm_compute in Hoff. discriminate.
Defined.

Lemma cat_error_survives_postRun_witness :
  let req := Sample.request Sample.node ["/ipfs/QmZ"] in
  re_error (catRun req newEmitter) <> None /\
  postRun CLI (responseOf (catRun req newEmitter)) =
    mkResponse 0 [] (Some "merkledag: not found").
Proof.
  intros req.
  assert (re_error (catRun req newEmitter) <> None) as Herr.
  { vm_compute. discriminate. }
  split; [exact Herr|].
  exact (proj1 (cat_error_survives_postRun req Herr)).
Defined.
